(** * ConfigureAdapter: the adapter configuration controller of flopflip

    A shallow embedding of
    [packages/react/modules/components/configure-adapter/configure-adapter.js].

    The component is a React class: it keeps the adapter's life-cycle state
    and the queued arguments in instance fields, the applied arguments in its
    React state, and talks to the adapter through promises.  Here the
    component instance is a record, every method is a function from instance
    to instance, and what the component does to the outside (calls on the
    adapter, promises it is waiting for) is written into the record too, so
    that it can be observed. *)

From stdpp Require Import gmap strings list fin_maps.
Local Open Scope string_scope.
Local Open Scope list_scope.
Local Open Scope nat_scope.
Set Warnings "-register-all".

(** ** Values *)

(** What an argument object or a flag set can hold.  Objects are finite maps
    from property names to values; numbers only occur as payload and are
    never computed with. *)
Inductive value : Type :=
| VNull
| VBool (b : bool)
| VNum (n : Z)
| VStr (s : string)
| VFun (f : string)
| VArr (xs : list value)
| VObj (m : gmap string value).

(** [AdapterArgs] and [Flags] are object types of [@flopflip/types]. *)
Abbreviation AdapterArgs := (gmap string value).
Abbreviation Flags := (gmap string value).

Definition is_leaf (v : value) : bool :=
  match v with
  | VObj _ => false
  | _ => true
  end.

(** Reading a value along a path of property names. *)
Fixpoint get_path (p : list string) (v : value) : option value :=
  match p with
  | [] => Some v
  | k :: q =>
      match v with
      | VObj m => m !! k ≫= get_path q
      | _ => None
      end
  end.

(** [silent p v]: [v] says nothing about the path [p], that is, it has no
    value at [p] and no leaf at a proper prefix of [p]. *)
Fixpoint silent (p : list string) (v : value) : Prop :=
  match p with
  | [] => False
  | k :: q =>
      match v with
      | VObj m =>
          match m !! k with
          | None => True
          | Some w => silent q w
          end
      | _ => False
      end
  end.

(** Modelled from the spec: [merge] is the default export of the npm package
    deepmerge, imported by the source and absent from it.  The spec gives it
    as a deep (recursive) merge: two mappings are merged key by key, and
    everywhere else (sequences, scalars, mismatching kinds) the incoming value
    replaces the previous one. *)
Fixpoint deepmerge (target source : value) {struct target} : value :=
  match target, source with
  | VObj t, VObj s =>
      VObj (map_imap (fun k v => Some (from_option (deepmerge v) v (s !! k))) t ∪ s)
  | _, _ => source
  end.

Definition merge (target source : AdapterArgs) : AdapterArgs :=
  map_imap (fun k v => Some (from_option (deepmerge v) v (source !! k))) target ∪ source.

(** ** Types of the component *)

Inductive AdapterState : Set :=
| UNCONFIGURED
| CONFIGURING
| CONFIGURED.

Global Instance AdapterState_eq_dec : EqDecision AdapterState.
Proof. solve_decision. Defined.

Record AdapterReconfigurationOptions : Type := {
  shouldOverwrite : option bool;
}.

(** The field the source calls [adapterArgs] is bound to [nextAdapterArgs]
    where it is read; [options] may be missing. *)
Record AdapterReconfiguration : Type := {
  nextAdapterArgs : AdapterArgs;
  options : option AdapterReconfigurationOptions;
}.

(** An object as the caller hands it to the component: [!==] looks at which
    object it is, everything else at what it holds. *)
Record Reference : Type := {
  identity : nat;
  target : AdapterArgs;
}.

(** [render] and [children] only matter to the view and are left out; the
    adapter is the one receiver of the [configure] and [reconfigure] calls
    recorded below.  Defaults of [defaultProps] are already filled in. *)
Record Props : Type := {
  shouldDeferAdapterConfiguration : bool;
  adapterArgs : Reference;
  defaultFlags : Flags;
}.

(** Calls leaving the component: [onFlagsStateChange] is the callback held
    by [this.props.adapterArgs], the other two are methods of
    [this.props.adapter]. *)
Inductive Call : Type :=
| onFlagsStateChange (flags : Flags)
| configure (args : AdapterArgs)
| reconfigure (args : AdapterArgs).

(** The two callbacks the component passes to [then]. *)
Inductive Continuation : Set :=
| thenConfigure
| thenReconfigure.

(** The component instance.  [calls] lists the calls made so far, oldest
    first; [promises] the adapter promises that have not settled yet, each
    with the callback waiting on it; [transitions] the arguments
    [setAdapterState] was given so far, oldest first. *)
Record ConfigureAdapter : Type := {
  props : Props;
  adapterState : AdapterState;
  pendingAdapterArgs : option AdapterArgs;
  appliedAdapterArgs : AdapterArgs;
  calls : list Call;
  promises : list Continuation;
  transitions : list AdapterState;
}.

Definition with_props (p : Props) (c : ConfigureAdapter) : ConfigureAdapter :=
  {| props := p;
     adapterState := adapterState c;
     pendingAdapterArgs := pendingAdapterArgs c;
     appliedAdapterArgs := appliedAdapterArgs c;
     calls := calls c;
     promises := promises c;
     transitions := transitions c |}.

Definition with_pendingAdapterArgs (a : option AdapterArgs) (c : ConfigureAdapter)
  : ConfigureAdapter :=
  {| props := props c;
     adapterState := adapterState c;
     pendingAdapterArgs := a;
     appliedAdapterArgs := appliedAdapterArgs c;
     calls := calls c;
     promises := promises c;
     transitions := transitions c |}.

Definition with_appliedAdapterArgs (a : AdapterArgs) (c : ConfigureAdapter)
  : ConfigureAdapter :=
  {| props := props c;
     adapterState := adapterState c;
     pendingAdapterArgs := pendingAdapterArgs c;
     appliedAdapterArgs := a;
     calls := calls c;
     promises := promises c;
     transitions := transitions c |}.

Definition with_promises (ps : list Continuation) (c : ConfigureAdapter)
  : ConfigureAdapter :=
  {| props := props c;
     adapterState := adapterState c;
     pendingAdapterArgs := pendingAdapterArgs c;
     appliedAdapterArgs := appliedAdapterArgs c;
     calls := calls c;
     promises := ps;
     transitions := transitions c |}.

(** Making a call: it is appended to the log. *)
Definition call (f : Call) (c : ConfigureAdapter) : ConfigureAdapter :=
  {| props := props c;
     adapterState := adapterState c;
     pendingAdapterArgs := pendingAdapterArgs c;
     appliedAdapterArgs := appliedAdapterArgs c;
     calls := calls c ++ [f];
     promises := promises c;
     transitions := transitions c |}.

(** [promise.then(k)] on a promise the adapter just returned. *)
Definition then_ (k : Continuation) (c : ConfigureAdapter) : ConfigureAdapter :=
  with_promises (promises c ++ [k]) c.

(** ** The merge of argument sets *)

(** [options.shouldOverwrite] read as a condition, with [options = {}] when
    it is missing. *)
Definition overwrites (o : option AdapterReconfigurationOptions) : bool :=
  match o with
  | Some {| shouldOverwrite := Some true |} => true
  | _ => false
  end.

Definition mergeAdapterArgs (previousAdapterArgs : AdapterArgs)
    (r : AdapterReconfiguration) : AdapterArgs :=
  if overwrites (options r)
  then nextAdapterArgs r
  else merge previousAdapterArgs (nextAdapterArgs r).

(** ** Methods *)

Definition setAdapterState (nextAdapterState : AdapterState)
    (c : ConfigureAdapter) : ConfigureAdapter :=
  {| props := props c;
     adapterState := nextAdapterState;
     pendingAdapterArgs := pendingAdapterArgs c;
     appliedAdapterArgs := appliedAdapterArgs c;
     calls := calls c;
     promises := promises c;
     transitions := transitions c ++ [nextAdapterState] |}.

(** Modelled from the spec: [setState] belongs to React and is absent from
    the source.  The spec has the applied arguments replaced atomically by a
    commit: the updater runs on the current state and the callback right
    after it, with nothing in between.  The re-render React then performs
    reaches the component as a later [componentDidUpdate]. *)
Definition applyAdapterArgs (nextArgs : AdapterArgs) (c : ConfigureAdapter)
  : ConfigureAdapter :=
  with_pendingAdapterArgs None (with_appliedAdapterArgs nextArgs c).

(** [this.pendingAdapterArgs || this.state.appliedAdapterArgs]: an object is
    never falsy, so only [null] falls through. *)
Definition getAdapterArgsForConfiguration (c : ConfigureAdapter) : AdapterArgs :=
  default (appliedAdapterArgs c) (pendingAdapterArgs c).

Definition setPendingAdapterArgs (nextReconfiguration : AdapterReconfiguration)
    (c : ConfigureAdapter) : ConfigureAdapter :=
  with_pendingAdapterArgs
    (Some (mergeAdapterArgs
             (default (appliedAdapterArgs c) (pendingAdapterArgs c))
             nextReconfiguration))
    c.

Definition reconfigureOrQueue (nextArgs : AdapterArgs)
    (o : option AdapterReconfigurationOptions) (c : ConfigureAdapter)
  : ConfigureAdapter :=
  if bool_decide (adapterState c = CONFIGURED)
     && negb (bool_decide (adapterState c = CONFIGURING))
  then applyAdapterArgs
         (mergeAdapterArgs (appliedAdapterArgs c)
            {| nextAdapterArgs := nextArgs; options := o |})
         c
  else setPendingAdapterArgs {| nextAdapterArgs := nextArgs; options := o |} c.

(** The guard is [Object.keys(defaultFlags).length > 0]; the call site takes
    the callback to be present in the arguments, as their type has it. *)
Definition handleDefaultFlags (flags : Flags) (c : ConfigureAdapter)
  : ConfigureAdapter :=
  if bool_decide (0 < size flags) then call (onFlagsStateChange flags) c else c.

Definition componentWillReceiveProps (nextProps : Props) (c : ConfigureAdapter)
  : ConfigureAdapter :=
  if negb (bool_decide (identity (adapterArgs nextProps)
                        = identity (adapterArgs (props c))))
  then reconfigureOrQueue (target (adapterArgs nextProps))
         (Some {| shouldOverwrite :=
                    Some (bool_decide (adapterState c = CONFIGURED)) |})
         c
  else c.

Definition componentDidMount (c : ConfigureAdapter) : ConfigureAdapter :=
  let c := handleDefaultFlags (defaultFlags (props c)) c in
  if negb (shouldDeferAdapterConfiguration (props c))
  then
    let c := setAdapterState CONFIGURING c in
    then_ thenConfigure (call (configure (getAdapterArgsForConfiguration c)) c)
  else c.

Definition componentDidUpdate (c : ConfigureAdapter) : ConfigureAdapter :=
  if negb (shouldDeferAdapterConfiguration (props c))
     && negb (bool_decide (adapterState c = CONFIGURED))
     && negb (bool_decide (adapterState c = CONFIGURING))
  then
    let c := setAdapterState CONFIGURING c in
    then_ thenConfigure (call (configure (getAdapterArgsForConfiguration c)) c)
  else if bool_decide (adapterState c = CONFIGURED)
          && negb (bool_decide (adapterState c = CONFIGURING))
  then
    let c := setAdapterState CONFIGURING c in
    then_ thenReconfigure (call (reconfigure (getAdapterArgsForConfiguration c)) c)
  else c.

(** The bodies of the two [then] callbacks. *)
Definition resume (k : Continuation) (c : ConfigureAdapter) : ConfigureAdapter :=
  match k with
  | thenConfigure =>
      let c := setAdapterState CONFIGURED c in
      match pendingAdapterArgs c with
      | Some pending => applyAdapterArgs pending c
      | None => c
      end
  | thenReconfigure => setAdapterState CONFIGURED c
  end.

(** ** The component in its environment *)

(** The [n]-th outstanding promise is fulfilled: its callback runs. *)
Definition fulfil (n : nat) (c : ConfigureAdapter) : ConfigureAdapter :=
  match promises c !! n with
  | Some k => resume k (with_promises (delete n (promises c)) c)
  | None => c
  end.

(** The [n]-th outstanding promise is rejected: only [then]'s first callback
    was given, so nothing of the component runs. *)
Definition reject (n : nat) (c : ConfigureAdapter) : ConfigureAdapter :=
  with_promises (delete n (promises c)) c.

(** What can happen to a mounted component: React hands it new props (and
    stores them once [componentWillReceiveProps] returned), React calls
    [componentDidUpdate] after a render, a consumer calls the function
    published through the context, or a promise of the adapter settles. *)
Inductive Event : Type :=
| ReceiveProps (nextProps : Props)
| DidUpdate
| Reconfigure (nextArgs : AdapterArgs) (o : option AdapterReconfigurationOptions)
| Fulfil (n : nat)
| Reject (n : nat).

Definition step (c : ConfigureAdapter) (e : Event) : ConfigureAdapter :=
  match e with
  | ReceiveProps nextProps =>
      with_props nextProps (componentWillReceiveProps nextProps c)
  | DidUpdate => componentDidUpdate c
  | Reconfigure nextArgs o => reconfigureOrQueue nextArgs o c
  | Fulfil n => fulfil n c
  | Reject n => reject n c
  end.

(** The instance as its property initialisers leave it. *)
Definition construct (p : Props) : ConfigureAdapter :=
  {| props := p;
     adapterState := UNCONFIGURED;
     pendingAdapterArgs := None;
     appliedAdapterArgs := target (adapterArgs p);
     calls := [];
     promises := [];
     transitions := [] |}.

Definition run (c : ConfigureAdapter) (es : list Event) : ConfigureAdapter :=
  foldl step c es.

(** A list of requests as the events they arrive as. *)
Definition requests (rs : list AdapterReconfiguration) : list Event :=
  map (λ r, Reconfigure (nextAdapterArgs r) (options r)) rs.

(** React mounts the component once.  Its descendants are mounted before it
    is, so a consumer of the context may already have made requests, [early],
    when [componentDidMount] runs; nothing else can have happened to the
    instance by then. *)
Definition mount (p : Props) (early : list AdapterReconfiguration)
  : ConfigureAdapter :=
  componentDidMount (run (construct p) (requests early)).

(** ** The life cycle as a relation on states *)

Definition advances (a b : AdapterState) : bool :=
  match a, b with
  | UNCONFIGURED, CONFIGURING => true
  | CONFIGURING, CONFIGURED => true
  | CONFIGURED, CONFIGURING => true
  | _, _ => false
  end.

(** Every state of the list is followed by one it may advance to. *)
Fixpoint lawful (a : AdapterState) (l : list AdapterState) : bool :=
  match l with
  | [] => true
  | b :: l' => advances a b && lawful b l'
  end.

Definition is_onFlagsStateChange (f : Call) : bool :=
  match f with
  | onFlagsStateChange _ => true
  | _ => false
  end.

(** What holds of every instance React can bring about: the assignments to
    the adapter state form a lawful chain from UNCONFIGURED, the state is
    the one assigned last, and a promise is outstanding only while
    CONFIGURING, and then at most one. *)
Record consistent (c : ConfigureAdapter) : Prop := {
  consistent_lawful : lawful UNCONFIGURED (transitions c) = true;
  consistent_current :
    adapterState c = default UNCONFIGURED (last (transitions c));
  consistent_promises :
    match adapterState c with
    | CONFIGURING => length (promises c) ≤ 1
    | _ => promises c = []
    end;
}.

(** ** A component at work *)

Definition flag (k : string) (n : Z) : AdapterArgs := {[ k := VNum n ]}.

(** The options [{shouldOverwrite: false}]. *)
Definition merging : option AdapterReconfigurationOptions :=
  Some {| shouldOverwrite := Some false |}.

(** The caller's props in the scenarios: [adapterArgs = {flagA: 1}], nothing
    deferred, no default flags. *)
Definition flagA_props : Props :=
  {| shouldDeferAdapterConfiguration := false;
     adapterArgs := {| identity := 0; target := flag "flagA" 1 |};
     defaultFlags := ∅ |}.

(** Mounted and configured: the [configure] promise was fulfilled. *)
Definition configured_component : ConfigureAdapter :=
  run (mount flagA_props []) [Fulfil 0].

(** Configured, then in the middle of a [reconfigure] call. *)
Definition reconfiguring_component : ConfigureAdapter :=
  run configured_component [DidUpdate].

(** A request for [flagB] arrived during that call, which then completed. *)
Definition reconfigured_component : ConfigureAdapter :=
  run reconfiguring_component [Reconfigure (flag "flagB" 2) merging; Fulfil 0].

(** The request [({k: n}, {shouldOverwrite: false})]. *)
Definition request (k : string) (n : Z) : AdapterReconfiguration :=
  {| nextAdapterArgs := flag k n; options := merging |}.

(** The props of the scenarios, with the configuration deferred. *)
Definition deferred_props : Props :=
  {| shouldDeferAdapterConfiguration := true;
     adapterArgs := adapterArgs flagA_props;
     defaultFlags := ∅ |}.


(** ** Observations on runs *)

Definition is_Fulfil (e : Event) : bool :=
  match e with
  | Fulfil _ => true
  | _ => false
  end.

(** The event does not lift a deferral: new props, if any, still ask for
    the configuration to be deferred. *)
Definition defers (e : Event) : bool :=
  match e with
  | ReceiveProps nextProps => shouldDeferAdapterConfiguration nextProps
  | _ => true
  end.

(** The calls made on [this.props.adapter], oldest first. *)
Definition adapter_calls (c : ConfigureAdapter) : list Call :=
  filter (λ f, is_onFlagsStateChange f = false) (calls c).

(** A component whose configuration is deferred and has not begun;
    [initial] are the arguments it was constructed with. *)
Definition dormant (initial : AdapterArgs) (c : ConfigureAdapter) : Prop :=
  shouldDeferAdapterConfiguration (props c) = true
  ∧ adapterState c = UNCONFIGURED
  ∧ promises c = []
  ∧ adapter_calls c = []
  ∧ appliedAdapterArgs c = initial.

(** [rest] is a log of adapter calls as state [s] allows it: empty while
    UNCONFIGURED, and afterwards one [configure] call followed by
    [reconfigure] calls only. *)
Definition configured_once (rest : list Call) (s : AdapterState) : Prop :=
  match s with
  | UNCONFIGURED => rest = []
  | _ => ∃ a l, rest = configure a :: map reconfigure l
  end.

(** * Properties *)

(** ** The deep merge *)

Lemma deepmerge_obj (t s : gmap string value) :
  deepmerge (VObj t) (VObj s) = VObj (merge t s).
Proof. reflexivity. Qed.

Lemma deepmerge_leaf (a b : value) : is_leaf b = true → deepmerge a b = b.
Proof. destruct a, b; simpl; intros; congruence. Qed.

Lemma deepmerge_onto_leaf (a b : value) : is_leaf a = true → deepmerge a b = b.
Proof. destruct a; simpl; intros; congruence. Qed.

(** One level of the merge: a key of both sides holds the merge of the two
    values, a key of one side holds that side's value. *)
Lemma lookup_merge (t s : gmap string value) (k : string) :
  merge t s !! k =
    match t !! k, s !! k with
    | Some v, Some w => Some (deepmerge v w)
    | Some v, None => Some v
    | None, o => o
    end.
Proof.
  unfold merge. rewrite lookup_union, map_lookup_imap.
  destruct (t !! k) as [v|] eqn:Ht, (s !! k) as [w|] eqn:Hs; simpl;
    rewrite ?Hs; reflexivity.
Qed.

Lemma dom_merge (t s : gmap string value) : dom (merge t s) = dom t ∪ dom s.
Proof.
  apply set_eq. intros k.
  rewrite elem_of_union, !elem_of_dom, lookup_merge.
  destruct (t !! k), (s !! k); split; intros H;
    try (destruct H as [H|H]); eauto; try (by destruct H).
Qed.

(** The incoming side's leaves win, at any depth. *)
Lemma deepmerge_leaf_wins (p : list string) :
  ∀ a b v, is_leaf v = true → get_path p b = Some v →
           get_path p (deepmerge a b) = Some v.
Proof.
  induction p as [|k q IH]; intros a b v Hv Hb; simpl in *.
  - injection Hb as ->. by rewrite deepmerge_leaf.
  - destruct b as [| | | | | |s]; try discriminate.
    destruct a as [| | | | | |t]; try exact Hb.
    rewrite deepmerge_obj, lookup_merge.
    destruct (s !! k) as [w|] eqn:Hs; simpl in Hb; [|discriminate].
    destruct (t !! k) as [x|]; simpl; [by apply IH | exact Hb].
Qed.

(** The previous side keeps what the incoming side is silent about. *)
Lemma deepmerge_keeps (p : list string) :
  ∀ a b v, get_path p a = Some v → silent p b →
           get_path p (deepmerge a b) = Some v.
Proof.
  induction p as [|k q IH]; intros a b v Ha Hb; simpl in *; [done|].
  destruct b as [| | | | | |s]; try done.
  destruct a as [| | | | | |t]; try discriminate.
  rewrite deepmerge_obj, lookup_merge.
  destruct (t !! k) as [x|] eqn:Ht; simpl in Ha; [|discriminate].
  destruct (s !! k) as [w|]; simpl; [by apply IH | exact Ha].
Qed.

(** Every leaf of the merge is a leaf of one of the two sides, at the same
    place. *)
Lemma deepmerge_leaf_origin (p : list string) :
  ∀ a b v, is_leaf v = true → get_path p (deepmerge a b) = Some v →
           get_path p a = Some v ∨ get_path p b = Some v.
Proof.
  induction p as [|k q IH]; intros a b v Hv H; simpl in *.
  - injection H as <-. right. f_equal.
    destruct a, b; simpl in *; congruence.
  - destruct a as [| | | | | |t];
      try (right; rewrite deepmerge_onto_leaf in H by reflexivity; exact H).
    destruct b as [| | | | | |s]; try (right; exact H).
    rewrite deepmerge_obj, lookup_merge in H.
    destruct (t !! k) as [x|], (s !! k) as [w|]; simpl in *; auto.
Qed.

Lemma overwrites_true (o : option AdapterReconfigurationOptions) :
  overwrites o = true ↔ ∃ o', o = Some o' ∧ shouldOverwrite o' = Some true.
Proof.
  split.
  - destruct o as [[[[]|]]|]; simpl; try discriminate. eauto.
  - intros ([s] & -> & H). simpl in H. by subst.
Qed.

(** C1. For all argument sets A and B and all options, [mergeAdapterArgs]
    returns B itself, whatever A, when [options.shouldOverwrite] is true.
    Otherwise it returns the deep merge of A and B: its keys are those of A
    and of B together; every leaf of B is found at the same path in the
    result (B wins on conflicts); everything of A that B is silent about is
    found at the same path in the result; and the result has no leaf that
    comes from neither. *)
Theorem mergeAdapterArgs_overwrite_or_deep_merge
    (A B : AdapterArgs) (o : option AdapterReconfigurationOptions) :
  let R := mergeAdapterArgs A {| nextAdapterArgs := B; options := o |} in
  ((∃ o', o = Some o' ∧ shouldOverwrite o' = Some true) → R = B)
  ∧ (¬ (∃ o', o = Some o' ∧ shouldOverwrite o' = Some true) →
     dom R = dom A ∪ dom B
     ∧ (∀ p v, is_leaf v = true → get_path p (VObj B) = Some v →
               get_path p (VObj R) = Some v)
     ∧ (∀ p v, get_path p (VObj A) = Some v → silent p (VObj B) →
               get_path p (VObj R) = Some v)
     ∧ (∀ p v, is_leaf v = true → get_path p (VObj R) = Some v →
               get_path p (VObj A) = Some v ∨ get_path p (VObj B) = Some v)).
Proof.
  intros R. subst R. unfold mergeAdapterArgs. simpl.
  split; intros Ho.
  - apply overwrites_true in Ho. by rewrite Ho.
  - destruct (overwrites o) eqn:E; [by apply overwrites_true in E|].
    rewrite <- deepmerge_obj.
    split; [apply dom_merge|].
    split; [|split]; intros p v.
    + apply deepmerge_leaf_wins.
    + apply deepmerge_keeps.
    + apply deepmerge_leaf_origin.
Qed.

(** ** The request entry point *)

Section Request.

Variable c : ConfigureAdapter.
Variable nextArgs : AdapterArgs.
Variable o : option AdapterReconfigurationOptions.

Lemma reconfigureOrQueue_CONFIGURED :
  adapterState c = CONFIGURED →
  reconfigureOrQueue nextArgs o c
  = applyAdapterArgs
      (mergeAdapterArgs (appliedAdapterArgs c)
         {| nextAdapterArgs := nextArgs; options := o |})
      c.
Proof. intros H. unfold reconfigureOrQueue. by rewrite H. Qed.

Lemma reconfigureOrQueue_otherwise :
  adapterState c ≠ CONFIGURED →
  reconfigureOrQueue nextArgs o c
  = setPendingAdapterArgs {| nextAdapterArgs := nextArgs; options := o |} c.
Proof.
  intros H. unfold reconfigureOrQueue.
  by rewrite (bool_decide_eq_false_2 _ H).
Qed.

(** C3. A request made while the adapter state is CONFIGURED commits at
    once: when [reconfigureOrQueue] returns, the applied arguments are the
    merge (by [mergeAdapterArgs], so under the request's options) of the
    previously applied arguments with the new ones; no call has been made,
    no promise is newly awaited and the adapter state has not moved. *)
Theorem reconfigureOrQueue_commits_when_configured :
  adapterState c = CONFIGURED →
  let c' := reconfigureOrQueue nextArgs o c in
  appliedAdapterArgs c'
  = mergeAdapterArgs (appliedAdapterArgs c)
      {| nextAdapterArgs := nextArgs; options := o |}
  ∧ calls c' = calls c
  ∧ promises c' = promises c
  ∧ adapterState c' = CONFIGURED
  ∧ transitions c' = transitions c.
Proof.
  intros H c'. subst c'. rewrite reconfigureOrQueue_CONFIGURED by done.
  simpl. by rewrite H.
Qed.

(** C4. A request made while the adapter state is UNCONFIGURED or
    CONFIGURING calls neither [configure] nor [reconfigure]: the instance
    it leaves differs from the one it found in the pending arguments only,
    which become the merge of the previous pending arguments, or of the
    applied ones when there were none, with the new arguments. *)
Theorem reconfigureOrQueue_queues_when_not_configured :
  adapterState c = UNCONFIGURED ∨ adapterState c = CONFIGURING →
  let previous :=
    match pendingAdapterArgs c with
    | Some pending => pending
    | None => appliedAdapterArgs c
    end in
  reconfigureOrQueue nextArgs o c
  = with_pendingAdapterArgs
      (Some (mergeAdapterArgs previous
               {| nextAdapterArgs := nextArgs; options := o |}))
      c
  ∧ calls (reconfigureOrQueue nextArgs o c) = calls c.
Proof.
  intros H previous. subst previous.
  rewrite reconfigureOrQueue_otherwise by (destruct H as [-> | ->]; done).
  unfold setPendingAdapterArgs. by destruct (pendingAdapterArgs c).
Qed.

(** C10. When arguments are pending and the adapter state is CONFIGURED, a
    request commits the merge of the previously applied arguments with the
    new ones and leaves nothing pending; what was pending plays no part:
    with anything else pending, or nothing, the outcome is the same. *)
Theorem reconfigureOrQueue_commit_discards_pending (pending : AdapterArgs) :
  adapterState c = CONFIGURED →
  pendingAdapterArgs c = Some pending →
  let c' := reconfigureOrQueue nextArgs o c in
  appliedAdapterArgs c'
  = mergeAdapterArgs (appliedAdapterArgs c)
      {| nextAdapterArgs := nextArgs; options := o |}
  ∧ pendingAdapterArgs c' = None
  ∧ ∀ other : option AdapterArgs,
      reconfigureOrQueue nextArgs o (with_pendingAdapterArgs other c) = c'.
Proof.
  intros H _ c'. subst c'. rewrite reconfigureOrQueue_CONFIGURED by done.
  repeat split. intros other.
  unfold reconfigureOrQueue. simpl. by rewrite H.
Qed.

End Request.

(** Requests move neither the adapter state nor the props, and call
    nothing. *)
Lemma requests_frame (rs : list AdapterReconfiguration) :
  ∀ c, let c' := run c (requests rs) in
       adapterState c' = adapterState c ∧ props c' = props c
       ∧ calls c' = calls c ∧ promises c' = promises c
       ∧ transitions c' = transitions c.
Proof.
  induction rs as [|[a o] rs IH]; intros c; [done|].
  change (run c (requests ({| nextAdapterArgs := a; options := o |} :: rs)))
    with (run (reconfigureOrQueue a o c) (requests rs)).
  cbv zeta.
  destruct (IH (reconfigureOrQueue a o c)) as (-> & -> & -> & -> & ->).
  unfold reconfigureOrQueue. by destruct (_ && _).
Qed.

(** ** The life-cycle hooks *)

Lemma handleDefaultFlags_empty (c : ConfigureAdapter) :
  handleDefaultFlags ∅ c = c.
Proof. reflexivity. Qed.

Lemma handleDefaultFlags_nonempty (flags : Flags) (c : ConfigureAdapter) :
  flags ≠ ∅ → handleDefaultFlags flags c = call (onFlagsStateChange flags) c.
Proof.
  intros H. unfold handleDefaultFlags.
  rewrite bool_decide_eq_true_2; [done|].
  apply map_size_non_empty_iff in H. lia.
Qed.

(** The default flags touch nothing but the log of calls. *)
Lemma handleDefaultFlags_frame (flags : Flags) (c : ConfigureAdapter) :
  let c' := handleDefaultFlags flags c in
  props c' = props c ∧ adapterState c' = adapterState c
  ∧ pendingAdapterArgs c' = pendingAdapterArgs c
  ∧ appliedAdapterArgs c' = appliedAdapterArgs c
  ∧ promises c' = promises c ∧ transitions c' = transitions c.
Proof. unfold handleDefaultFlags. by case_bool_decide. Qed.

(** What a fulfilled [configure] promise does to the instance it finds. *)
Lemma fulfil_thenConfigure (n : nat) (c : ConfigureAdapter) :
  promises c !! n = Some thenConfigure →
  let c' := fulfil n c in
  adapterState c' = CONFIGURED
  ∧ appliedAdapterArgs c' = getAdapterArgsForConfiguration c
  ∧ pendingAdapterArgs c' = None
  ∧ calls c' = calls c
  ∧ promises c' = delete n (promises c)
  ∧ transitions c' = transitions c ++ [CONFIGURED].
Proof.
  intros H. unfold fulfil, getAdapterArgsForConfiguration. rewrite H.
  unfold resume. simpl.
  destruct (pendingAdapterArgs c) as [pending|] eqn:E; simpl; by rewrite ?E.
Qed.

(** What a fulfilled [reconfigure] promise does to the instance it finds. *)
Lemma fulfil_thenReconfigure (n : nat) (c : ConfigureAdapter) :
  promises c !! n = Some thenReconfigure →
  fulfil n c
  = setAdapterState CONFIGURED (with_promises (delete n (promises c)) c).
Proof. intros H. unfold fulfil. by rewrite H. Qed.

(** The calls of [componentDidMount]: the default flags first, if any, then
    [configure], unless deferred. *)
Lemma componentDidMount_calls (c : ConfigureAdapter) :
  calls (componentDidMount c)
  = calls c
    ++ calls (handleDefaultFlags (defaultFlags (props c))
                (construct (props c)))
    ++ (if shouldDeferAdapterConfiguration (props c) then []
        else [configure (getAdapterArgsForConfiguration c)]).
Proof.
  unfold componentDidMount, handleDefaultFlags, getAdapterArgsForConfiguration.
  case_bool_decide;
    destruct (shouldDeferAdapterConfiguration (props c)) eqn:E;
    simpl; rewrite ?E; simpl; by rewrite ?app_nil_r, <- ?app_assoc.
Qed.

(** C5. Start-up without deferral: [componentDidMount] on an UNCONFIGURED
    instance moves it to CONFIGURING and calls [configure] with the pending
    arguments if there are any, else with the applied ones, and waits for
    the promise.  When that promise is fulfilled, whatever state the
    instance is in by then, the adapter state becomes CONFIGURED and, if
    arguments are pending, they become the applied arguments and nothing is
    pending any more. *)
Theorem componentDidMount_configures (c : ConfigureAdapter) :
  shouldDeferAdapterConfiguration (props c) = false →
  adapterState c = UNCONFIGURED →
  let c1 := componentDidMount c in
  adapterState c1 = CONFIGURING
  ∧ transitions c1 = transitions c ++ [CONFIGURING]
  ∧ last (calls c1)
    = Some (configure match pendingAdapterArgs c with
                      | Some pending => pending
                      | None => appliedAdapterArgs c
                      end)
  ∧ promises c1 = promises c ++ [thenConfigure]
  ∧ ∀ (c2 : ConfigureAdapter) (n : nat),
      promises c2 !! n = Some thenConfigure →
      let c3 := fulfil n c2 in
      adapterState c3 = CONFIGURED
      ∧ match pendingAdapterArgs c2 with
        | Some pending =>
            appliedAdapterArgs c3 = pending ∧ pendingAdapterArgs c3 = None
        | None =>
            appliedAdapterArgs c3 = appliedAdapterArgs c2
            ∧ pendingAdapterArgs c3 = None
        end.
Proof.
  intros Hd _ c1. subst c1. unfold componentDidMount.
  destruct (handleDefaultFlags_frame (defaultFlags (props c)) c)
    as (Hp & Hs & Hq & Ha & Hr & Ht).
  rewrite Hp, Hd. simpl. unfold getAdapterArgsForConfiguration. simpl.
  rewrite Hq, Ha, Hr, Ht, last_snoc.
  do 2 (split; [done|]).
  split; [by destruct (pendingAdapterArgs c)|]. split; [done|].
  intros c2 n H. pose proof (fulfil_thenConfigure n c2 H) as (? & ? & ? & _).
  unfold getAdapterArgsForConfiguration in *.
  by destruct (pendingAdapterArgs c2).
Qed.

(** C7. A [componentDidUpdate] on a CONFIGURED instance (configuration not
    deferred) moves it to CONFIGURING and calls [reconfigure] with the
    pending arguments if there are any, else with the applied ones.  When
    that promise is fulfilled the adapter state goes back to CONFIGURED, and
    the pending and the applied arguments are what they were just before:
    this callback does not drain the pending arguments. *)
Theorem componentDidUpdate_reconfigures (c : ConfigureAdapter) :
  shouldDeferAdapterConfiguration (props c) = false →
  adapterState c = CONFIGURED →
  let c1 := componentDidUpdate c in
  adapterState c1 = CONFIGURING
  ∧ calls c1
    = calls c ++ [reconfigure match pendingAdapterArgs c with
                              | Some pending => pending
                              | None => appliedAdapterArgs c
                              end]
  ∧ promises c1 = promises c ++ [thenReconfigure]
  ∧ pendingAdapterArgs c1 = pendingAdapterArgs c
  ∧ appliedAdapterArgs c1 = appliedAdapterArgs c
  ∧ ∀ (c2 : ConfigureAdapter) (n : nat),
      promises c2 !! n = Some thenReconfigure →
      let c3 := fulfil n c2 in
      adapterState c3 = CONFIGURED
      ∧ pendingAdapterArgs c3 = pendingAdapterArgs c2
      ∧ appliedAdapterArgs c3 = appliedAdapterArgs c2
      ∧ calls c3 = calls c2.
Proof.
  intros Hd Hs c1. subst c1. unfold componentDidUpdate.
  rewrite Hd, Hs. simpl. unfold getAdapterArgsForConfiguration. simpl.
  split; [done|]. split; [by destruct (pendingAdapterArgs c)|].
  do 3 (split; [done|]).
  intros c2 n H. by rewrite (fulfil_thenReconfigure n c2 H).
Qed.

(** C8. New props whose argument object is another object than the current
    one are passed to [reconfigureOrQueue], with [shouldOverwrite] true when
    the adapter state is CONFIGURED and false otherwise: in the first case
    the new arguments replace the applied ones, in the second they are merged
    into the pending ones.  Props with the same argument object leave the
    instance as it is. *)
Theorem componentWillReceiveProps_routes (nextProps : Props) (c : ConfigureAdapter) :
  let next := target (adapterArgs nextProps) in
  (identity (adapterArgs nextProps) ≠ identity (adapterArgs (props c)) →
   (∃ b : bool,
      (b = true ↔ adapterState c = CONFIGURED)
      ∧ componentWillReceiveProps nextProps c
        = reconfigureOrQueue next (Some {| shouldOverwrite := Some b |}) c)
   ∧ (adapterState c = CONFIGURED →
      componentWillReceiveProps nextProps c = applyAdapterArgs next c)
   ∧ (adapterState c ≠ CONFIGURED →
      componentWillReceiveProps nextProps c
      = with_pendingAdapterArgs
          (Some (merge (getAdapterArgsForConfiguration c) next)) c))
  ∧ (identity (adapterArgs nextProps) = identity (adapterArgs (props c)) →
     componentWillReceiveProps nextProps c = c).
Proof.
  intros next. subst next. unfold componentWillReceiveProps. split; intros H.
  - rewrite (bool_decide_eq_false_2 _ H). simpl. split; [|split].
    + eexists. split; [|reflexivity]. apply bool_decide_eq_true.
    + intros Hs. rewrite reconfigureOrQueue_CONFIGURED by done.
      unfold mergeAdapterArgs. simpl. by rewrite Hs.
    + intros Hs. rewrite reconfigureOrQueue_otherwise by done.
      unfold setPendingAdapterArgs, mergeAdapterArgs. simpl.
      by rewrite (bool_decide_eq_false_2 _ Hs).
  - by rewrite (bool_decide_eq_true_2 _ H).
Qed.

(** C9. At start-up the default flags are passed to [onFlagsStateChange]
    exactly when they are not empty: then the first call of the mounted
    component is [onFlagsStateChange] with these flags, it is the only call
    of that kind, and a [configure] call, if there is one, comes after it;
    with empty default flags no [onFlagsStateChange] call is made. *)
Theorem mount_default_flags (p : Props) (early : list AdapterReconfiguration) :
  let c := mount p early in
  let configuring :=
    if shouldDeferAdapterConfiguration p then []
    else [configure (getAdapterArgsForConfiguration
                       (run (construct p) (requests early)))] in
  (defaultFlags p ≠ ∅ →
   calls c = onFlagsStateChange (defaultFlags p) :: configuring)
  ∧ (defaultFlags p = ∅ → calls c = configuring)
  ∧ (length (filter (λ f, is_onFlagsStateChange f = true) (calls c)) = 1
     ↔ defaultFlags p ≠ ∅)
  ∧ (length (filter (λ f, is_onFlagsStateChange f = true) (calls c)) = 0
     ↔ defaultFlags p = ∅).
Proof.
  intros c configuring. subst c.
  destruct (requests_frame early (construct p)) as (Hs & Hp & Hc & _).
  simpl in Hp, Hc.
  assert (Hne : defaultFlags p ≠ ∅ →
    calls (mount p early) = onFlagsStateChange (defaultFlags p) :: configuring).
  { intros H. unfold mount. rewrite componentDidMount_calls, Hp, Hc.
    rewrite handleDefaultFlags_nonempty by done. done. }
  assert (He : defaultFlags p = ∅ → calls (mount p early) = configuring).
  { intros H. unfold mount. rewrite componentDidMount_calls, Hp, Hc.
    by rewrite H, handleDefaultFlags_empty. }
  assert (Hf : filter (λ f, is_onFlagsStateChange f = true) configuring = []).
  { subst configuring. by destruct (shouldDeferAdapterConfiguration p). }
  assert (Hdec : defaultFlags p = ∅ ∨ defaultFlags p ≠ ∅).
  { destruct (decide (size (defaultFlags p) = 0)) as [H|H].
    - left. by apply map_size_empty_iff.
    - right. by apply map_size_non_empty_iff. }
  repeat split; try done.
  - intros H1 H0. rewrite (He H0), Hf in H1. discriminate.
  - intros H. rewrite (Hne H), filter_cons_True by done. by rewrite Hf.
  - intros H0. destruct Hdec as [|H]; [done|].
    rewrite (Hne H), filter_cons_True in H0 by done. discriminate.
  - intros H. by rewrite (He H), Hf.
Qed.

(** ** The life cycle of the adapter state *)

Lemma lawful_snoc (l : list AdapterState) :
  ∀ a b, lawful a (l ++ [b])
         = lawful a l && advances (default a (last l)) b.
Proof.
  induction l as [|x l IH]; intros a b; simpl.
  - by rewrite andb_true_r.
  - rewrite IH, andb_assoc. do 2 f_equal.
    rewrite last_cons. by destruct (last l).
Qed.

Lemma lawful_adjacent (l : list AdapterState) :
  ∀ a l1 x y l2, lawful a l = true → a :: l = l1 ++ x :: y :: l2 →
                 advances x y = true.
Proof.
  induction l as [|b l IH]; intros a l1 x y l2 Hl E.
  - destruct l1 as [|? [|? ?]]; discriminate.
  - simpl in Hl. apply andb_true_iff in Hl as [Hab Hl].
    destruct l1 as [|z l1]; simpl in E.
    + by injection E as -> ->.
    + injection E as _ E. by eapply IH.
Qed.

Lemma consistent_construct (p : Props) : consistent (construct p).
Proof. by split. Qed.

(** Parts of the instance that the life cycle does not depend on may change
    freely. *)
Lemma consistent_frame (c c' : ConfigureAdapter) :
  adapterState c' = adapterState c → promises c' = promises c →
  transitions c' = transitions c → consistent c → consistent c'.
Proof.
  intros Hs Hp Ht [H1 H2 H3]. split; rewrite ?Hs, ?Hp, ?Ht; done.
Qed.

(** Entering CONFIGURING from a state without outstanding promise, and
    issuing one call. *)
Lemma consistent_enter (k : Continuation) (f : Call) (c : ConfigureAdapter) :
  adapterState c ≠ CONFIGURING → consistent c →
  consistent (then_ k (call f (setAdapterState CONFIGURING c))).
Proof.
  intros Hs [H1 H2 H3]. split; simpl.
  - rewrite lawful_snoc, H1, <- H2. by destruct (adapterState c).
  - by rewrite last_snoc.
  - destruct (adapterState c); [by rewrite H3|done|by rewrite H3].
Qed.

Lemma consistent_reconfigureOrQueue nextArgs o (c : ConfigureAdapter) :
  consistent c → consistent (reconfigureOrQueue nextArgs o c).
Proof.
  apply consistent_frame; unfold reconfigureOrQueue;
    by destruct (_ && _).
Qed.

Lemma consistent_componentDidMount (c : ConfigureAdapter) :
  adapterState c ≠ CONFIGURING → consistent c →
  consistent (componentDidMount c).
Proof.
  intros Hs Hc. unfold componentDidMount.
  set (c0 := handleDefaultFlags (defaultFlags (props c)) c).
  destruct (handleDefaultFlags_frame (defaultFlags (props c)) c)
    as (_ & Hs0 & _ & _ & Hr & Ht).
  assert (consistent c0) by by apply (consistent_frame c).
  destruct (negb _); [|done].
  apply consistent_enter; [subst c0; by rewrite Hs0|done].
Qed.

Lemma consistent_componentDidUpdate (c : ConfigureAdapter) :
  consistent c → consistent (componentDidUpdate c).
Proof.
  intros Hc. unfold componentDidUpdate.
  destruct (adapterState c) eqn:Hs; simpl;
    rewrite ?andb_false_r, ?andb_true_r; try done.
  - destruct (negb _); [|done]. apply consistent_enter; [by rewrite Hs|done].
  - apply consistent_enter; [by rewrite Hs|done].
Qed.

Lemma consistent_fulfil (n : nat) (c : ConfigureAdapter) :
  consistent c → consistent (fulfil n c).
Proof.
  intros [H1 H2 H3]. unfold fulfil.
  destruct (promises c !! n) as [k|] eqn:Hk; [|done].
  assert (adapterState c = CONFIGURING ∧ delete n (promises c) = [])
    as [Hs Hd].
  { destruct (adapterState c); try (rewrite H3 in Hk; discriminate).
    split; [done|].
    destruct (promises c) as [|? [|? ?]], n as [|n];
      simpl in *; try done; lia. }
  assert (consistent
            (setAdapterState CONFIGURED (with_promises (delete n (promises c)) c))).
  { split; simpl.
    - by rewrite lawful_snoc, H1, <- H2, Hs.
    - by rewrite last_snoc.
    - done. }
  destruct k; simpl; [|done].
  destruct (pendingAdapterArgs c); [|done].
  eapply consistent_frame; [..|eassumption]; done.
Qed.

Lemma consistent_reject (n : nat) (c : ConfigureAdapter) :
  consistent c → consistent (reject n c).
Proof.
  intros [H1 H2 H3]. split; simpl; try done.
  destruct (adapterState c); rewrite ?H3; try done.
  destruct (promises c) as [|? [|? ?]], n as [|n]; simpl in *; lia.
Qed.

Lemma consistent_step (c : ConfigureAdapter) (e : Event) :
  consistent c → consistent (step c e).
Proof.
  intros Hc. destruct e as [nextProps| |nextArgs o|n|n]; simpl.
  - apply (consistent_frame (componentWillReceiveProps nextProps c));
      try done.
    unfold componentWillReceiveProps.
    destruct (negb _); [by apply consistent_reconfigureOrQueue|done].
  - by apply consistent_componentDidUpdate.
  - by apply consistent_reconfigureOrQueue.
  - by apply consistent_fulfil.
  - by apply consistent_reject.
Qed.

Lemma consistent_run (es : list Event) :
  ∀ c, consistent c → consistent (run c es).
Proof.
  induction es as [|e es IH]; intros c Hc; [done|].
  apply IH. by apply consistent_step.
Qed.

Lemma consistent_mount (p : Props) (early : list AdapterReconfiguration) :
  consistent (mount p early).
Proof.
  apply consistent_componentDidMount.
  - destruct (requests_frame early (construct p)) as [-> _]. done.
  - apply consistent_run, consistent_construct.
Qed.

(** C6. Whatever happens to a mounted component, every assignment to the
    adapter state follows the cycle: looking at UNCONFIGURED, the state of
    the new instance, followed by all the states assigned since, any two
    neighbours are UNCONFIGURED then CONFIGURING, or CONFIGURING then
    CONFIGURED, or CONFIGURED then CONFIGURING.  So CONFIGURING is never
    followed by UNCONFIGURED, CONFIGURED is only entered from CONFIGURING,
    and CONFIGURING is only entered from UNCONFIGURED or CONFIGURED, never
    from CONFIGURING. *)
Theorem adapterState_follows_the_cycle
    (p : Props) (early : list AdapterReconfiguration) (es : list Event)
    (l1 l2 : list AdapterState) (a b : AdapterState) :
  UNCONFIGURED :: transitions (run (mount p early) es) = l1 ++ a :: b :: l2 →
  (a = UNCONFIGURED ∧ b = CONFIGURING)
  ∨ (a = CONFIGURING ∧ b = CONFIGURED)
  ∨ (a = CONFIGURED ∧ b = CONFIGURING).
Proof.
  intros E.
  pose proof (consistent_run es _ (consistent_mount p early)) as [H _ _].
  pose proof (lawful_adjacent _ _ _ _ _ _ H E) as Hab.
  destruct a, b; try discriminate; auto.
Qed.

(** The adapter state is the state assigned last, and a promise is
    outstanding only while CONFIGURING: the calls on the adapter never
    overlap. *)
Lemma adapterState_is_last_assigned
    (p : Props) (early : list AdapterReconfiguration) (es : list Event) :
  let c := run (mount p early) es in
  adapterState c = default UNCONFIGURED (last (transitions c))
  ∧ length (promises c) ≤ 1
  ∧ (promises c ≠ [] → adapterState c = CONFIGURING).
Proof.
  intros c. subst c.
  pose proof (consistent_run es _ (consistent_mount p early))
    as [_ H2 H3].
  split; [done|].
  destruct (adapterState (run (mount p early) es)); rewrite ?H3; simpl;
    split; (lia || done).
Qed.

(** ** Requests while the adapter is busy *)

Lemma run_app (c : ConfigureAdapter) (es es' : list Event) :
  run c (es ++ es') = run (run c es) es'.
Proof. apply foldl_app. Qed.

(** Requests that arrive while the adapter state is not CONFIGURED are
    folded into the pending arguments one after the other, starting from
    what was pending, or applied when nothing was. *)
Lemma requests_fold_into_pending (rs : list AdapterReconfiguration) :
  ∀ (c : ConfigureAdapter) (r : AdapterReconfiguration),
    adapterState c ≠ CONFIGURED →
    run c (requests (r :: rs))
    = with_pendingAdapterArgs
        (Some (foldl mergeAdapterArgs (getAdapterArgsForConfiguration c) (r :: rs)))
        c.
Proof.
  induction rs as [|r' rs IH]; intros c [a o] Hs.
  - simpl. by rewrite reconfigureOrQueue_otherwise.
  - change (run c (requests (_ :: r' :: rs)))
      with (run (reconfigureOrQueue a o c) (requests (r' :: rs))).
    rewrite reconfigureOrQueue_otherwise by done.
    by rewrite IH.
Qed.

(** The [configure] path loses none of them: when the promise is fulfilled
    the accumulated arguments become the applied ones. *)
Lemma configure_applies_the_requests
    (c : ConfigureAdapter) (r : AdapterReconfiguration)
    (rs : list AdapterReconfiguration) :
  adapterState c = CONFIGURING → promises c = [thenConfigure] →
  let c' := run c (requests (r :: rs) ++ [Fulfil 0]) in
  adapterState c' = CONFIGURED
  ∧ pendingAdapterArgs c' = None
  ∧ appliedAdapterArgs c'
    = foldl mergeAdapterArgs (getAdapterArgsForConfiguration c) (r :: rs).
Proof.
  intros Hs Hp c'. subst c'.
  rewrite run_app, requests_fold_into_pending by (by rewrite Hs).
  set (c1 := with_pendingAdapterArgs _ c).
  assert (H : promises c1 !! 0 = Some thenConfigure) by (simpl; by rewrite Hp).
  destruct (fulfil_thenConfigure 0 c1 H) as (? & ? & ? & _). done.
Qed.

(** Two requests that do not overwrite leave the keys of both in the
    accumulated arguments. *)
Lemma two_requests_keep_their_keys (previous : AdapterArgs)
    (r1 r2 : AdapterReconfiguration) :
  overwrites (options r1) = false → overwrites (options r2) = false →
  dom (nextAdapterArgs r1) ∪ dom (nextAdapterArgs r2)
  ⊆ dom (foldl mergeAdapterArgs previous [r1; r2]).
Proof.
  intros Ho1 Ho2. simpl. unfold mergeAdapterArgs.
  rewrite Ho1, Ho2, !dom_merge.
  intros k. rewrite !elem_of_union. tauto.
Qed.

(** C2. Requests made while CONFIGURING can be lost.  The component is
    configured and a [reconfigure] call is under way when two requests
    arrive, for [flagB] and for [flagC], neither overwriting: both are
    queued in the pending arguments.  The [reconfigure] promise is then
    fulfilled, which leaves them pending, and a third request, for [flagD],
    arrives in the CONFIGURED state: it is merged into the applied
    arguments and the pending ones are cleared.  Neither [flagB] nor
    [flagC] is in the applied or in the pending arguments any more. *)
Theorem requests_while_reconfiguring_are_lost :
  let c1 := step reconfiguring_component (Reconfigure (flag "flagB" 2) merging) in
  let c2 := step c1 (Reconfigure (flag "flagC" 3) merging) in
  let c3 := run c2 [Fulfil 0; Reconfigure (flag "flagD" 4) merging] in
  adapterState reconfiguring_component = CONFIGURING
  ∧ adapterState c1 = CONFIGURING
  ∧ pendingAdapterArgs c2
    = Some {[ "flagA" := VNum 1; "flagB" := VNum 2; "flagC" := VNum 3 ]}
  ∧ adapterState c3 = CONFIGURED
  ∧ pendingAdapterArgs c3 = None
  ∧ appliedAdapterArgs c3 = {[ "flagA" := VNum 1; "flagD" := VNum 4 ]}
  ∧ appliedAdapterArgs c3 !! "flagB" = None
  ∧ appliedAdapterArgs c3 !! "flagC" = None.
Proof. vm_compute. repeat split. Qed.

(** ** Scenarios *)

(** Start-up calls [configure({flagA: 1})]; once the promise is fulfilled
    the component is CONFIGURED with the arguments it was constructed
    with. *)
Example scenario_startup :
  calls (mount flagA_props []) = [configure (flag "flagA" 1)]
  ∧ adapterState (mount flagA_props []) = CONFIGURING
  ∧ adapterState configured_component = CONFIGURED
  ∧ appliedAdapterArgs configured_component = flag "flagA" 1
  ∧ pendingAdapterArgs configured_component = None.
Proof. vm_compute. repeat split. Qed.

(** A request during the [configure] call is applied when the call
    completes, and no [reconfigure] call has been made by then. *)
Example scenario_request_during_configure :
  let c := run (mount flagA_props [])
             [Reconfigure (flag "flagB" 2) merging; Fulfil 0] in
  appliedAdapterArgs c = {[ "flagA" := VNum 1; "flagB" := VNum 2 ]}
  ∧ adapterState c = CONFIGURED
  ∧ calls c = [configure (flag "flagA" 1)].
Proof. vm_compute. repeat split. Qed.

(** A descendant that asked for [flagB] while it was mounted itself is
    served by the first [configure] call. *)
Example scenario_request_before_mount :
  calls (mount flagA_props
           [{| nextAdapterArgs := flag "flagB" 2; options := merging |}])
  = [configure {[ "flagA" := VNum 1; "flagB" := VNum 2 ]}].
Proof. vm_compute. reflexivity. Qed.

(** With deferred configuration nothing is called at start-up. *)
Example scenario_deferred :
  let c := mount {| shouldDeferAdapterConfiguration := true;
                    adapterArgs := {| identity := 0; target := flag "flagA" 1 |};
                    defaultFlags := ∅ |} [] in
  calls c = [] ∧ adapterState c = UNCONFIGURED.
Proof. vm_compute. repeat split. Qed.

(** Default flags go to [onFlagsStateChange] before [configure] is called. *)
Example scenario_default_flags :
  calls (mount {| shouldDeferAdapterConfiguration := false;
                  adapterArgs := {| identity := 0; target := flag "flagA" 1 |};
                  defaultFlags := {[ "flagX" := VBool true ]} |} [])
  = [onFlagsStateChange {[ "flagX" := VBool true ]};
     configure (flag "flagA" 1)].
Proof. vm_compute. reflexivity. Qed.

(** The deep merge on nested objects: the incoming leaf wins, the rest of
    both sides is kept. *)
Example scenario_deep_merge :
  merge {[ "user" := VObj {[ "key" := VStr "a"; "group" := VStr "g" ]};
           "flagA" := VNum 1 ]}
        {[ "user" := VObj {[ "key" := VStr "b" ]}; "flagB" := VNum 2 ]}
  = {[ "user" := VObj {[ "key" := VStr "b"; "group" := VStr "g" ]};
       "flagA" := VNum 1; "flagB" := VNum 2 ]}.
Proof. vm_compute. reflexivity. Qed.

(** ** The theorems at work on the scenarios *)

Lemma mergeAdapterArgs_overwrite_or_deep_merge_witness :
  mergeAdapterArgs (flag "flagA" 1)
    {| nextAdapterArgs := flag "flagB" 2;
       options := Some {| shouldOverwrite := Some true |} |}
  = flag "flagB" 2
  ∧ get_path ["flagB"]
      (VObj (mergeAdapterArgs (flag "flagA" 1)
               {| nextAdapterArgs := flag "flagB" 2; options := None |}))
    = Some (VNum 2)
  ∧ get_path ["flagA"]
      (VObj (mergeAdapterArgs (flag "flagA" 1)
               {| nextAdapterArgs := flag "flagB" 2; options := None |}))
    = Some (VNum 1).
Proof.
  split; [|split].
  - apply (mergeAdapterArgs_overwrite_or_deep_merge (flag "flagA" 1)
             (flag "flagB" 2) (Some {| shouldOverwrite := Some true |})).
    eexists. split; reflexivity.
  - destruct (mergeAdapterArgs_overwrite_or_deep_merge (flag "flagA" 1)
                (flag "flagB" 2) None) as [_ H].
    destruct H as (_ & Hwins & _).
    + intros (o' & E & _). discriminate E.
    + apply Hwins; reflexivity.
  - destruct (mergeAdapterArgs_overwrite_or_deep_merge (flag "flagA" 1)
                (flag "flagB" 2) None) as [_ H].
    destruct H as (_ & _ & Hkeeps & _).
    + intros (o' & E & _). discriminate E.
    + apply Hkeeps; [reflexivity|]. vm_compute. exact I.
Defined.

Lemma reconfigureOrQueue_commits_when_configured_witness :
  adapterState configured_component = CONFIGURED
  ∧ appliedAdapterArgs
      (reconfigureOrQueue (flag "flagB" 2) None configured_component)
    = mergeAdapterArgs (appliedAdapterArgs configured_component)
        {| nextAdapterArgs := flag "flagB" 2; options := None |}.
Proof.
  split; [reflexivity|].
  apply (reconfigureOrQueue_commits_when_configured configured_component
           (flag "flagB" 2) None).
  reflexivity.
Defined.

Lemma reconfigureOrQueue_queues_when_not_configured_witness :
  adapterState (mount flagA_props []) = CONFIGURING
  ∧ calls (reconfigureOrQueue (flag "flagB" 2) None (mount flagA_props []))
    = calls (mount flagA_props []).
Proof.
  split; [reflexivity|].
  apply (reconfigureOrQueue_queues_when_not_configured (mount flagA_props [])
           (flag "flagB" 2) None).
  right. reflexivity.
Defined.

Lemma reconfigureOrQueue_commit_discards_pending_witness :
  let c := reconfigured_component in
  let pending : AdapterArgs := {[ "flagA" := VNum 1; "flagB" := VNum 2 ]} in
  adapterState c = CONFIGURED
  ∧ pendingAdapterArgs c = Some pending
  ∧ pendingAdapterArgs (reconfigureOrQueue (flag "flagC" 3) None c) = None.
Proof.
  intros c pending.
  assert (H : pendingAdapterArgs c = Some pending)
    by (vm_compute; reflexivity).
  split; [reflexivity|]. split; [exact H|].
  apply (reconfigureOrQueue_commit_discards_pending c (flag "flagC" 3) None
           pending); [reflexivity | exact H].
Defined.

Lemma componentDidMount_configures_witness :
  shouldDeferAdapterConfiguration (props (construct flagA_props)) = false
  ∧ adapterState (construct flagA_props) = UNCONFIGURED
  ∧ adapterState (componentDidMount (construct flagA_props)) = CONFIGURING.
Proof.
  split; [reflexivity|]. split; [reflexivity|].
  apply (componentDidMount_configures (construct flagA_props)); reflexivity.
Defined.

Lemma componentDidUpdate_reconfigures_witness :
  shouldDeferAdapterConfiguration (props configured_component) = false
  ∧ adapterState configured_component = CONFIGURED
  ∧ adapterState (componentDidUpdate configured_component) = CONFIGURING.
Proof.
  split; [reflexivity|]. split; [reflexivity|].
  apply (componentDidUpdate_reconfigures configured_component); reflexivity.
Defined.

Lemma componentWillReceiveProps_routes_witness :
  let nextProps :=
    {| shouldDeferAdapterConfiguration := false;
       adapterArgs := {| identity := 1; target := flag "flagB" 2 |};
       defaultFlags := ∅ |} in
  identity (adapterArgs nextProps)
  ≠ identity (adapterArgs (props configured_component))
  ∧ adapterState configured_component = CONFIGURED
  ∧ componentWillReceiveProps nextProps configured_component
    = applyAdapterArgs (flag "flagB" 2) configured_component.
Proof.
  intros nextProps.
  assert (H : identity (adapterArgs nextProps)
              ≠ identity (adapterArgs (props configured_component)))
    by (vm_compute; lia).
  split; [exact H|]. split; [reflexivity|].
  apply (componentWillReceiveProps_routes nextProps configured_component);
    [exact H | reflexivity].
Defined.

Lemma mount_default_flags_witness :
  let p :=
    {| shouldDeferAdapterConfiguration := false;
       adapterArgs := {| identity := 0; target := flag "flagA" 1 |};
       defaultFlags := {[ "flagX" := VBool true ]} |} in
  defaultFlags p ≠ ∅
  ∧ calls (mount p [])
    = [onFlagsStateChange (defaultFlags p); configure (flag "flagA" 1)].
Proof.
  intros p.
  assert (H : defaultFlags p ≠ ∅).
  { intros E. apply (f_equal size) in E. vm_compute in E. discriminate E. }
  split; [exact H|].
  apply (mount_default_flags p []). exact H.
Defined.

Lemma adapterState_follows_the_cycle_witness :
  UNCONFIGURED :: transitions (run (mount flagA_props []) [Fulfil 0; DidUpdate])
  = [UNCONFIGURED; CONFIGURING] ++ CONFIGURED :: CONFIGURING :: []
  ∧ ((CONFIGURED = UNCONFIGURED ∧ CONFIGURING = CONFIGURING)
     ∨ (CONFIGURED = CONFIGURING ∧ CONFIGURING = CONFIGURED)
     ∨ (CONFIGURED = CONFIGURED ∧ CONFIGURING = CONFIGURING)).
Proof.
  split; [reflexivity|].
  apply (adapterState_follows_the_cycle flagA_props [] [Fulfil 0; DidUpdate]
           [UNCONFIGURED; CONFIGURING] [] CONFIGURED CONFIGURING).
  reflexivity.
Defined.

(** * Further properties of the life cycle *)

(** ** Single steps *)

Lemma reconfigureOrQueue_frame nextArgs o (c : ConfigureAdapter) :
  let c' := reconfigureOrQueue nextArgs o c in
  adapterState c' = adapterState c ∧ props c' = props c
  ∧ calls c' = calls c ∧ promises c' = promises c
  ∧ transitions c' = transitions c.
Proof. unfold reconfigureOrQueue. by destruct (_ && _). Qed.

Lemma componentWillReceiveProps_frame nextProps (c : ConfigureAdapter) :
  let c' := componentWillReceiveProps nextProps c in
  adapterState c' = adapterState c ∧ props c' = props c
  ∧ calls c' = calls c ∧ promises c' = promises c
  ∧ transitions c' = transitions c.
Proof.
  unfold componentWillReceiveProps.
  destruct (negb _); [apply reconfigureOrQueue_frame|done].
Qed.

Lemma reconfigureOrQueue_keeps_applied nextArgs o (c : ConfigureAdapter) :
  adapterState c ≠ CONFIGURED →
  appliedAdapterArgs (reconfigureOrQueue nextArgs o c) = appliedAdapterArgs c.
Proof. intros H. by rewrite reconfigureOrQueue_otherwise. Qed.

(** While CONFIGURING, an event that fulfils no promise makes no call,
    applies nothing and leaves the adapter state alone. *)
Lemma step_while_configuring (c : ConfigureAdapter) (e : Event) :
  adapterState c = CONFIGURING →
  is_Fulfil e = false ∨ promises c = [] →
  let c' := step c e in
  adapterState c' = CONFIGURING ∧ calls c' = calls c
  ∧ appliedAdapterArgs c' = appliedAdapterArgs c
  ∧ transitions c' = transitions c
  ∧ (promises c = [] → promises c' = []).
Proof.
  intros Hs He.
  assert (Hne : adapterState c ≠ CONFIGURED) by (by rewrite Hs).
  destruct e as [nextProps| |nextArgs o|n|n]; simpl.
  - destruct (componentWillReceiveProps_frame nextProps c)
      as (-> & _ & -> & -> & ->).
    repeat split; try done.
    unfold componentWillReceiveProps.
    destruct (negb _); [by apply reconfigureOrQueue_keeps_applied|done].
  - unfold componentDidUpdate. rewrite Hs. simpl.
    by rewrite andb_false_r.
  - destruct (reconfigureOrQueue_frame nextArgs o c)
      as (-> & _ & -> & -> & ->).
    repeat split; try done. by apply reconfigureOrQueue_keeps_applied.
  - destruct He as [He|He]; [discriminate|].
    unfold fulfil. by rewrite He.
  - repeat split; try done. by intros ->.
Qed.

(** ** Promises *)

(** X1. The calls on the adapter never overlap: whatever happens to a
    mounted component, at most one promise of the adapter is outstanding,
    and one is outstanding only while the adapter state is CONFIGURING. *)
Theorem adapter_calls_never_overlap
    (p : Props) (early : list AdapterReconfiguration) (es : list Event) :
  let c := run (mount p early) es in
  length (promises c) ≤ 1
  ∧ (adapterState c = CONFIGURING ∨ promises c = []).
Proof.
  intros c. subst c.
  pose proof (consistent_run es _ (consistent_mount p early)) as [_ _ H].
  destruct (adapterState (run (mount p early) es)); rewrite ?H; simpl;
    split; (lia || auto).
Qed.

(** X2. While a call is under way nothing else reaches the adapter: from
    a CONFIGURING instance, any events among which no promise is fulfilled
    (new props, [componentDidUpdate], requests, rejections) leave the
    adapter state CONFIGURING, make no call and apply no arguments. *)
Theorem nothing_happens_while_configuring
    (c : ConfigureAdapter) (es : list Event) :
  adapterState c = CONFIGURING →
  forallb (λ e, negb (is_Fulfil e)) es = true →
  let c' := run c es in
  adapterState c' = CONFIGURING
  ∧ calls c' = calls c
  ∧ appliedAdapterArgs c' = appliedAdapterArgs c
  ∧ transitions c' = transitions c.
Proof.
  revert c. induction es as [|e es IH]; intros c Hs Hes; [done|].
  simpl in Hes. apply andb_true_iff in Hes as [He Hes].
  apply negb_true_iff in He.
  destruct (step_while_configuring c e Hs (or_introl He))
    as (Hs' & Hc & Ha & Ht & _).
  destruct (IH (step c e) Hs' Hes) as (? & ? & ? & ?).
  change (run c (e :: es)) with (run (step c e) es).
  cbv zeta. by rewrite <- Hc, <- Ha, <- Ht.
Qed.

(** X3. A rejected promise is never recovered from: [then] is given no
    rejection callback, so once the instance is CONFIGURING with no promise
    left outstanding it stays CONFIGURING whatever happens; no call is made
    any more and the applied arguments never change. *)
Theorem stuck_after_rejection (c : ConfigureAdapter) (es : list Event) :
  adapterState c = CONFIGURING →
  promises c = [] →
  let c' := run c es in
  adapterState c' = CONFIGURING
  ∧ promises c' = []
  ∧ calls c' = calls c
  ∧ appliedAdapterArgs c' = appliedAdapterArgs c.
Proof.
  revert c. induction es as [|e es IH]; intros c Hs Hp; [done|].
  destruct (step_while_configuring c e Hs (or_intror Hp))
    as (Hs' & Hc & Ha & _ & Hp').
  destruct (IH (step c e) Hs' (Hp' Hp)) as (? & ? & ? & ?).
  change (run c (e :: es)) with (run (step c e) es).
  cbv zeta. by rewrite <- Hc, <- Ha.
Qed.

(** ** Deferred configuration *)

Lemma requests_keep_applied (rs : list AdapterReconfiguration) :
  ∀ c, adapterState c ≠ CONFIGURED →
       appliedAdapterArgs (run c (requests rs)) = appliedAdapterArgs c.
Proof.
  induction rs as [|[a o] rs IH]; intros c Hs; [done|].
  change (run c (requests ({| nextAdapterArgs := a; options := o |} :: rs)))
    with (run (reconfigureOrQueue a o c) (requests rs)).
  rewrite IH.
  - by apply reconfigureOrQueue_keeps_applied.
  - by destruct (reconfigureOrQueue_frame a o c) as (-> & _).
Qed.

Lemma adapter_calls_handleDefaultFlags (flags : Flags) (c : ConfigureAdapter) :
  adapter_calls (handleDefaultFlags flags c) = adapter_calls c.
Proof.
  unfold handleDefaultFlags, adapter_calls. case_bool_decide; [|done].
  simpl. rewrite filter_app. simpl. by rewrite app_nil_r.
Qed.

Lemma dormant_step (initial : AdapterArgs) (c : ConfigureAdapter) (e : Event) :
  defers e = true → dormant initial c → dormant initial (step c e).
Proof.
  intros He (Hp & Hs & Hr & Hc & Ha).
  assert (Hne : adapterState c ≠ CONFIGURED) by (by rewrite Hs).
  unfold dormant, adapter_calls in *.
  destruct e as [nextProps| |nextArgs o|n|n]; simpl in *.
  - destruct (componentWillReceiveProps_frame nextProps c)
      as (-> & _ & -> & -> & _).
    repeat split; try done.
    unfold componentWillReceiveProps.
    destruct (negb _); [|done].
    by rewrite reconfigureOrQueue_keeps_applied.
  - unfold componentDidUpdate. by rewrite Hp, Hs.
  - destruct (reconfigureOrQueue_frame nextArgs o c)
      as (-> & -> & -> & -> & _).
    repeat split; try done. by rewrite reconfigureOrQueue_keeps_applied.
  - unfold fulfil. by rewrite Hr.
  - by rewrite Hr.
Qed.

Lemma componentDidMount_deferred (c : ConfigureAdapter) :
  shouldDeferAdapterConfiguration (props c) = true →
  componentDidMount c = handleDefaultFlags (defaultFlags (props c)) c.
Proof.
  intros Hd. unfold componentDidMount, handleDefaultFlags.
  case_bool_decide; simpl; by rewrite Hd.
Qed.

Lemma dormant_mount (p : Props) (early : list AdapterReconfiguration) :
  shouldDeferAdapterConfiguration p = true →
  dormant (target (adapterArgs p)) (mount p early).
Proof.
  intros Hd. unfold mount.
  destruct (requests_frame early (construct p)) as (Hs & Hp & Hc & Hr & _).
  pose proof (requests_keep_applied early (construct p)) as Ha.
  revert Hs Hp Hc Hr Ha. generalize (run (construct p) (requests early)).
  simpl. intros c Hs Hp Hc Hr Ha.
  rewrite componentDidMount_deferred by (by rewrite Hp).
  destruct (handleDefaultFlags_frame (defaultFlags (props c)) c)
    as (Hp' & Hs' & _ & Ha' & Hr' & _).
  unfold dormant. rewrite Hp', Hs', Ha', Hr', adapter_calls_handleDefaultFlags.
  unfold adapter_calls. rewrite Hp, Hc, Ha by done. done.
Qed.

(** X4. A deferred configuration stays deferred: when the component is
    mounted with [shouldDeferAdapterConfiguration] and all later props keep
    it, then whatever happens the adapter state is UNCONFIGURED, no promise
    is awaited, the adapter has not been called and the applied arguments
    are those the component was constructed with. *)
Theorem deferred_never_configures
    (p : Props) (early : list AdapterReconfiguration) (es : list Event) :
  shouldDeferAdapterConfiguration p = true →
  forallb defers es = true →
  let c := run (mount p early) es in
  adapterState c = UNCONFIGURED
  ∧ promises c = []
  ∧ adapter_calls c = []
  ∧ appliedAdapterArgs c = target (adapterArgs p).
Proof.
  intros Hd Hes c. subst c.
  pose proof (dormant_mount p early Hd) as H0.
  revert H0 Hes. generalize (mount p early).
  induction es as [|e es IH]; intros c Hc Hes.
  - by destruct Hc as (_ & ? & ? & ? & ?).
  - simpl in Hes. apply andb_true_iff in Hes as [He Hes].
    apply (IH (step c e)); [by apply dormant_step|done].
Qed.

(** ** The log of adapter calls *)

Lemma configured_once_componentDidMount (c : ConfigureAdapter) :
  adapterState c = UNCONFIGURED → adapter_calls c = [] →
  configured_once (adapter_calls (componentDidMount c))
    (adapterState (componentDidMount c)).
Proof.
  intros Hs Hc. unfold componentDidMount.
  destruct (handleDefaultFlags_frame (defaultFlags (props c)) c)
    as (Hp' & Hs' & _).
  pose proof (adapter_calls_handleDefaultFlags (defaultFlags (props c)) c) as Hc'.
  revert Hp' Hs' Hc'. generalize (handleDefaultFlags (defaultFlags (props c)) c).
  intros c0 Hp' Hs' Hc'. cbv zeta.
  destruct (negb _).
  - unfold then_, adapter_calls in *. simpl. rewrite filter_app, Hc', Hc. simpl.
    by exists (getAdapterArgsForConfiguration (setAdapterState CONFIGURING c0)), [].
  - by rewrite Hs', Hs, Hc'.
Qed.

Lemma configured_once_step (c : ConfigureAdapter) (e : Event) :
  consistent c →
  configured_once (adapter_calls c) (adapterState c) →
  configured_once (adapter_calls (step c e)) (adapterState (step c e)).
Proof.
  intros [_ _ Hpr] H. destruct e as [nextProps| |nextArgs o|n|n]; simpl.
  - destruct (componentWillReceiveProps_frame nextProps c)
      as (Hs & _ & Hc & _).
    unfold adapter_calls in *. simpl. by rewrite Hs, Hc.
  - unfold componentDidUpdate.
    destruct (adapterState c) eqn:Hs; simpl;
      rewrite ?andb_false_r, ?andb_true_r; try by rewrite ?Hs.
    + destruct (negb _); [|by rewrite Hs].
      unfold then_, adapter_calls in *. simpl in *.
      rewrite filter_app, H. simpl.
      by exists (getAdapterArgsForConfiguration (setAdapterState CONFIGURING c)), [].
    + destruct H as (a & l & H).
      unfold then_, adapter_calls in *. simpl in *.
      rewrite filter_app, H. simpl.
      exists a, (l ++ [getAdapterArgsForConfiguration
                         (setAdapterState CONFIGURING c)]).
      by rewrite map_app.
  - destruct (reconfigureOrQueue_frame nextArgs o c) as (Hs & _ & Hc & _).
    unfold adapter_calls in *. by rewrite Hs, Hc.
  - unfold fulfil. destruct (promises c !! n) as [k|] eqn:Hk; [|done].
    assert (Hs : adapterState c = CONFIGURING).
    { destruct (adapterState c); try done; by rewrite Hpr in Hk. }
    rewrite Hs in H.
    assert (Hr : ∀ c', adapterState c' = CONFIGURED →
                       adapter_calls c' = adapter_calls c →
                       configured_once (adapter_calls c') (adapterState c')).
    { intros c' -> ->. exact H. }
    apply Hr; destruct k; simpl; by destruct (pendingAdapterArgs c).
  - done.
Qed.

(** X5. [configure] is called at most once, and before any [reconfigure]:
    whatever happens to a mounted component, the adapter has not been called
    at all while the adapter state is UNCONFIGURED, and otherwise the calls
    made on it are one [configure] followed by [reconfigure] calls only. *)
Theorem configure_once_then_reconfigure
    (p : Props) (early : list AdapterReconfiguration) (es : list Event) :
  let c := run (mount p early) es in
  match adapterState c with
  | UNCONFIGURED => adapter_calls c = []
  | _ => ∃ a l, adapter_calls c = configure a :: map reconfigure l
  end.
Proof.
  intros c. subst c.
  assert (H0 : configured_once (adapter_calls (mount p early))
                 (adapterState (mount p early))).
  { unfold mount.
    destruct (requests_frame early (construct p)) as (Hs & _ & Hc & _).
    apply configured_once_componentDidMount; [done|].
    unfold adapter_calls. by rewrite Hc. }
  pose proof (consistent_mount p early) as Hc.
  revert H0 Hc. generalize (mount p early).
  induction es as [|e es IH]; intros c H Hc; [exact H|].
  apply (IH (step c e)).
  - by apply configured_once_step.
  - by apply consistent_step.
Qed.

(** ** What is applied, and when *)

Lemma step_transitions_grow (c : ConfigureAdapter) (e : Event) :
  ∃ l, transitions (step c e) = transitions c ++ l.
Proof.
  destruct e as [nextProps| |nextArgs o|n|n]; simpl.
  - destruct (componentWillReceiveProps_frame nextProps c)
      as (_ & _ & _ & _ & ->). exists []. by rewrite app_nil_r.
  - unfold componentDidUpdate.
    repeat (destruct (_ && _)); simpl; eauto. exists []. by rewrite app_nil_r.
  - destruct (reconfigureOrQueue_frame nextArgs o c)
      as (_ & _ & _ & _ & ->). exists []. by rewrite app_nil_r.
  - unfold fulfil. destruct (promises c !! n) as [[]|]; simpl.
    + destruct (pendingAdapterArgs c); simpl; eauto.
    + eauto.
    + exists []. by rewrite app_nil_r.
  - exists []. by rewrite app_nil_r.
Qed.

Lemma step_applies_when_configured
    (initial : AdapterArgs) (c : ConfigureAdapter) (e : Event) :
  consistent c →
  CONFIGURED ∈ transitions c ∨ appliedAdapterArgs c = initial →
  CONFIGURED ∈ transitions (step c e)
  ∨ appliedAdapterArgs (step c e) = initial.
Proof.
  intros [_ Hcur _] [H|H].
  { left. destruct (step_transitions_grow c e) as [l ->].
    apply elem_of_app. by left. }
  assert (Hin : adapterState c = CONFIGURED → CONFIGURED ∈ transitions c).
  { intros Hs. rewrite Hs in Hcur.
    destruct (last (transitions c)) as [s|] eqn:Hl; [|discriminate].
    simpl in Hcur. subst s.
    apply last_Some in Hl as [l' ->]. apply elem_of_app. right. by left. }
  assert (Hq : ∀ a o,
    CONFIGURED ∈ transitions (reconfigureOrQueue a o c)
    ∨ appliedAdapterArgs (reconfigureOrQueue a o c) = initial).
  { intros a o. destruct (reconfigureOrQueue_frame a o c)
      as (_ & _ & _ & _ & ->).
    destruct (decide (adapterState c = CONFIGURED)) as [Hs|Hs]; [by auto|].
    right. by rewrite reconfigureOrQueue_keeps_applied. }
  destruct e as [nextProps| |nextArgs o|n|n]; simpl.
  - unfold componentWillReceiveProps. destruct (negb _); [apply Hq|by right].
  - right. unfold componentDidUpdate.
    by repeat (destruct (_ && _)).
  - apply Hq.
  - unfold fulfil. destruct (promises c !! n) as [[]|]; simpl.
    + left. destruct (pendingAdapterArgs c); simpl;
        apply elem_of_app; right; by left.
    + left. apply elem_of_app; right; by left.
    + by right.
  - by right.
Qed.

(** X6. Nothing is applied before the adapter is configured: as long as
    the adapter state of a mounted component has never been set to
    CONFIGURED, the applied arguments are those it was constructed with,
    whatever requests and new props have arrived. *)
Theorem nothing_applied_before_configured
    (p : Props) (early : list AdapterReconfiguration) (es : list Event) :
  let c := run (mount p early) es in
  CONFIGURED ∉ transitions c →
  appliedAdapterArgs c = target (adapterArgs p).
Proof.
  intros c Hn. subst c.
  assert (H : CONFIGURED ∈ transitions (run (mount p early) es)
              ∨ appliedAdapterArgs (run (mount p early) es)
                = target (adapterArgs p)); [|by destruct H].
  clear Hn.
  assert (H0 : appliedAdapterArgs (mount p early) = target (adapterArgs p)).
  { unfold mount, componentDidMount.
    pose proof (requests_keep_applied early (construct p)) as Ha.
    revert Ha. generalize (run (construct p) (requests early)). intros c Ha.
    destruct (handleDefaultFlags_frame (defaultFlags (props c)) c)
      as (_ & _ & _ & Ha' & _).
    cbv zeta. destruct (negb _); simpl; rewrite Ha'; by apply Ha. }
  pose proof (consistent_mount p early) as Hc.
  assert (H : CONFIGURED ∈ transitions (mount p early)
              ∨ appliedAdapterArgs (mount p early) = target (adapterArgs p))
    by by right.
  clear H0. revert H Hc. generalize (mount p early).
  induction es as [|e es IH]; intros c H Hc; [exact H|].
  apply (IH (step c e)).
  - by apply step_applies_when_configured.
  - by apply consistent_step.
Qed.

(** ** Whole cycles *)

Lemma pending_after_requests (rs : list AdapterReconfiguration)
    (c : ConfigureAdapter) :
  adapterState c ≠ CONFIGURED → rs ≠ [] →
  pendingAdapterArgs (run c (requests rs))
  = Some (foldl mergeAdapterArgs (getAdapterArgsForConfiguration c) rs).
Proof.
  intros Hs Hrs. destruct rs as [|r rs]; [done|].
  by rewrite requests_fold_into_pending.
Qed.

Lemma arguments_after_requests (rs : list AdapterReconfiguration)
    (c : ConfigureAdapter) :
  adapterState c ≠ CONFIGURED →
  getAdapterArgsForConfiguration (run c (requests rs))
  = foldl mergeAdapterArgs (getAdapterArgsForConfiguration c) rs.
Proof.
  intros Hs. destruct rs as [|r rs]; [done|].
  by rewrite requests_fold_into_pending.
Qed.

(** A [configure] call from its start to its completion, with the requests
    that arrive in between. *)
Lemma configure_cycle (c : ConfigureAdapter) (rs : list AdapterReconfiguration) :
  adapterState c = CONFIGURING → promises c = [thenConfigure] →
  let c' := run c (requests rs ++ [Fulfil 0]) in
  adapterState c' = CONFIGURED
  ∧ pendingAdapterArgs c' = None
  ∧ appliedAdapterArgs c'
    = foldl mergeAdapterArgs (getAdapterArgsForConfiguration c) rs
  ∧ calls c' = calls c
  ∧ promises c' = [].
Proof.
  intros Hs Hp c'. subst c'. rewrite run_app.
  destruct (requests_frame rs c) as (Hs' & _ & Hc' & Hp' & _).
  pose proof (arguments_after_requests rs c) as Ha.
  revert Hs' Hc' Hp' Ha. generalize (run c (requests rs)).
  intros c1 Hs' Hc' Hp' Ha.
  assert (H : promises c1 !! 0 = Some thenConfigure) by by rewrite Hp', Hp.
  destruct (fulfil_thenConfigure 0 c1 H) as (H1 & H2 & H3 & H4 & H5 & _).
  change (run c1 [Fulfil 0]) with (fulfil 0 c1).
  rewrite H1, H2, H3, H4, H5, Hc', Hp', Hp, Ha by (by rewrite Hs).
  done.
Qed.

(** [componentDidMount] when nothing is deferred. *)
Lemma componentDidMount_begins (c : ConfigureAdapter) :
  shouldDeferAdapterConfiguration (props c) = false →
  let c' := componentDidMount c in
  adapterState c' = CONFIGURING
  ∧ promises c' = promises c ++ [thenConfigure]
  ∧ getAdapterArgsForConfiguration c' = getAdapterArgsForConfiguration c
  ∧ adapter_calls c'
    = adapter_calls c ++ [configure (getAdapterArgsForConfiguration c)].
Proof.
  intros Hd. unfold componentDidMount.
  destruct (handleDefaultFlags_frame (defaultFlags (props c)) c)
    as (Hp & _ & Hq & Ha & Hr & _).
  pose proof (adapter_calls_handleDefaultFlags (defaultFlags (props c)) c) as Hc.
  revert Hp Hq Ha Hr Hc. generalize (handleDefaultFlags (defaultFlags (props c)) c).
  intros c0 Hp Hq Ha Hr Hc. cbv zeta. rewrite Hp, Hd. simpl.
  unfold adapter_calls, getAdapterArgsForConfiguration in *. simpl.
  by rewrite filter_app, Hc, Hq, Ha, Hr.
Qed.

(** X7. Start-up applies every request made so far: when nothing is
    deferred, [configure] is called with the constructor's arguments merged
    with the requests made before the component was mounted, in their order;
    when the promise is fulfilled the adapter state is CONFIGURED, nothing
    is pending, and the applied arguments are the constructor's arguments
    merged with all requests, those made before mounting and those made
    during the call, in their order.  No other call has been made on the
    adapter. *)
Theorem startup_applies_every_request
    (p : Props) (early rs : list AdapterReconfiguration) :
  shouldDeferAdapterConfiguration p = false →
  let c := run (mount p early) (requests rs ++ [Fulfil 0]) in
  adapterState c = CONFIGURED
  ∧ pendingAdapterArgs c = None
  ∧ appliedAdapterArgs c
    = foldl mergeAdapterArgs (target (adapterArgs p)) (early ++ rs)
  ∧ adapter_calls c
    = [configure (foldl mergeAdapterArgs (target (adapterArgs p)) early)].
Proof.
  intros Hd c. subst c. unfold mount.
  destruct (requests_frame early (construct p)) as (_ & Hp & Hc & Hr & _).
  pose proof (arguments_after_requests early (construct p)) as Ha.
  revert Hp Hc Hr Ha. generalize (run (construct p) (requests early)).
  simpl. intros c0 Hp Hc Hr Ha.
  destruct (componentDidMount_begins c0) as (H1 & H2 & H3 & H4);
    [by rewrite Hp|].
  rewrite Hr in H2.
  destruct (configure_cycle (componentDidMount c0) rs H1 H2)
    as (Hs' & Hq' & Ha' & Hc' & _).
  rewrite Hs', Hq', Ha', H3, Ha, foldl_app by done.
  unfold adapter_calls in *. rewrite Hc', H4, Hc, Ha by done.
  done.
Qed.

(** X8. Lifting a deferral: a [componentDidUpdate] on an UNCONFIGURED
    instance whose props no longer defer calls [configure] with the pending
    arguments if there are any, else the applied ones; when that promise is
    fulfilled the adapter state is CONFIGURED, nothing is pending and the
    applied arguments are those passed to [configure] merged with the
    requests made during the call, in their order. *)
Theorem componentDidUpdate_configures_when_released
    (c : ConfigureAdapter) (rs : list AdapterReconfiguration) :
  adapterState c = UNCONFIGURED →
  shouldDeferAdapterConfiguration (props c) = false →
  promises c = [] →
  let c' := run c (DidUpdate :: requests rs ++ [Fulfil 0]) in
  adapterState c' = CONFIGURED
  ∧ pendingAdapterArgs c' = None
  ∧ appliedAdapterArgs c'
    = foldl mergeAdapterArgs (getAdapterArgsForConfiguration c) rs
  ∧ calls c' = calls c ++ [configure (getAdapterArgsForConfiguration c)].
Proof.
  intros Hs Hd Hp c'. subst c'.
  change (run c (DidUpdate :: requests rs ++ [Fulfil 0]))
    with (run (componentDidUpdate c) (requests rs ++ [Fulfil 0])).
  assert (E : componentDidUpdate c
              = then_ thenConfigure
                  (call (configure (getAdapterArgsForConfiguration c))
                     (setAdapterState CONFIGURING c))).
  { unfold componentDidUpdate. by rewrite Hs, Hd. }
  rewrite E.
  destruct (configure_cycle
              (then_ thenConfigure
                 (call (configure (getAdapterArgsForConfiguration c))
                    (setAdapterState CONFIGURING c))) rs)
    as (H1 & H2 & H3 & H4 & _); [done|by simpl; rewrite Hp|].
  by rewrite H1, H2, H3, H4.
Qed.



(** X10. Requests made during a [reconfigure] call are not applied when
    the call completes, but they are what the adapter gets next: after one
    or more such requests, the fulfilment of the promise and a
    [componentDidUpdate], [reconfigure] has been called with the arguments
    of the call under way merged with the requests in their order; these
    are still pending, and the applied arguments have not changed. *)
Theorem requests_during_reconfigure_reach_the_adapter
    (c : ConfigureAdapter) (r : AdapterReconfiguration)
    (rs : list AdapterReconfiguration) :
  adapterState c = CONFIGURING →
  promises c = [thenReconfigure] →
  let c' := run c (requests (r :: rs) ++ [Fulfil 0; DidUpdate]) in
  let queued :=
    foldl mergeAdapterArgs (getAdapterArgsForConfiguration c) (r :: rs) in
  adapterState c' = CONFIGURING
  ∧ calls c' = calls c ++ [reconfigure queued]
  ∧ pendingAdapterArgs c' = Some queued
  ∧ appliedAdapterArgs c' = appliedAdapterArgs c.
Proof.
  intros Hs Hp c' queued. subst c' queued.
  rewrite run_app, requests_fold_into_pending by (by rewrite Hs).
  change (run ?x [Fulfil 0; DidUpdate])
    with (componentDidUpdate (fulfil 0 x)).
  unfold fulfil. simpl. rewrite Hp. simpl.
  unfold componentDidUpdate. simpl. by rewrite andb_false_r.
Qed.

(** X11. An overwriting request forgets all that was queued: of the
    requests made while the adapter state is not CONFIGURED, only the last
    one with [shouldOverwrite] and those after it count; the pending
    arguments are the arguments of that request merged with the later
    requests in their order, whatever was applied, pending or requested
    before. *)
Theorem last_overwrite_wins
    (c : ConfigureAdapter) (before after : list AdapterReconfiguration)
    (r : AdapterReconfiguration) :
  adapterState c ≠ CONFIGURED →
  overwrites (options r) = true →
  pendingAdapterArgs (run c (requests (before ++ r :: after)))
  = Some (foldl mergeAdapterArgs (nextAdapterArgs r) after).
Proof.
  intros Hs Ho.
  rewrite pending_after_requests by (done || by destruct before).
  rewrite foldl_app. simpl. unfold mergeAdapterArgs at 2. by rewrite Ho.
Qed.


Lemma step_calls_grow (c : ConfigureAdapter) (e : Event) :
  ∃ l, calls (step c e) = calls c ++ l
       ∧ Forall (λ f, is_onFlagsStateChange f = false) l.
Proof.
  assert (H0 : ∀ c' : ConfigureAdapter, calls c' = calls c →
    ∃ l, calls c' = calls c ++ l
         ∧ Forall (λ f, is_onFlagsStateChange f = false) l).
  { intros c' ->. exists []. by rewrite app_nil_r. }
  destruct e as [nextProps| |nextArgs o|n|n]; simpl.
  - apply H0. by destruct (componentWillReceiveProps_frame nextProps c)
      as (_ & _ & -> & _).
  - unfold componentDidUpdate.
    repeat (destruct (_ && _)); simpl; [| |by apply H0];
      eexists; (split; [reflexivity|]); by repeat constructor.
  - apply H0. by destruct (reconfigureOrQueue_frame nextArgs o c)
      as (_ & _ & -> & _).
  - apply H0. unfold fulfil. destruct (promises c !! n) as [[]|]; simpl;
      by destruct (pendingAdapterArgs c).
  - by apply H0.
Qed.

(** X13. The default flags are reported at mounting and never again:
    whatever happens to a mounted component afterwards, the calls it has
    made are those made while mounting followed by calls that are not
    [onFlagsStateChange] calls. *)
Theorem default_flags_only_at_mount
    (p : Props) (early : list AdapterReconfiguration) (es : list Event) :
  ∃ l, calls (run (mount p early) es) = calls (mount p early) ++ l
       ∧ Forall (λ f, is_onFlagsStateChange f = false) l.
Proof.
  generalize (mount p early).
  induction es as [|e es IH]; intros c.
  - exists []. by rewrite app_nil_r.
  - destruct (step_calls_grow c e) as (l1 & E1 & F1).
    destruct (IH (step c e)) as (l2 & E2 & F2).
    exists (l1 ++ l2). split.
    + change (run c (e :: es)) with (run (step c e) es).
      by rewrite E2, E1, app_assoc.
    + by apply Forall_app.
Qed.

(** ** The further properties on the scenarios *)

Lemma nothing_happens_while_configuring_witness :
  let c := mount flagA_props [] in
  let es := [DidUpdate; Reconfigure (flag "flagB" 2) merging; Reject 0] in
  adapterState c = CONFIGURING
  ∧ forallb (λ e, negb (is_Fulfil e)) es = true
  ∧ calls (run c es) = calls c.
Proof.
  intros c es. split; [reflexivity|]. split; [reflexivity|].
  apply (nothing_happens_while_configuring c es); reflexivity.
Defined.

Lemma stuck_after_rejection_witness :
  let c := run (mount flagA_props []) [Reject 0] in
  let es := [DidUpdate; Fulfil 0; Reconfigure (flag "flagB" 2) merging] in
  adapterState c = CONFIGURING
  ∧ promises c = []
  ∧ adapterState (run c es) = CONFIGURING.
Proof.
  intros c es. split; [reflexivity|]. split; [reflexivity|].
  apply (stuck_after_rejection c es); reflexivity.
Defined.

Lemma deferred_never_configures_witness :
  let es := [DidUpdate; Reconfigure (flag "flagB" 2) merging;
             ReceiveProps deferred_props; DidUpdate] in
  shouldDeferAdapterConfiguration deferred_props = true
  ∧ forallb defers es = true
  ∧ adapterState (run (mount deferred_props []) es) = UNCONFIGURED.
Proof.
  intros es. split; [reflexivity|]. split; [reflexivity|].
  apply (deferred_never_configures deferred_props [] es); reflexivity.
Defined.

Lemma nothing_applied_before_configured_witness :
  let es := [Reconfigure (flag "flagB" 2) merging; DidUpdate] in
  (CONFIGURED ∉ transitions (run (mount flagA_props []) es))
  ∧ appliedAdapterArgs (run (mount flagA_props []) es) = flag "flagA" 1.
Proof.
  intros es.
  assert (H : CONFIGURED ∉ transitions (run (mount flagA_props []) es)).
  { vm_compute. intros H. inversion H as [|? ? ? H0]. inversion H0. }
  split; [exact H|].
  apply (nothing_applied_before_configured flagA_props [] es H).
Defined.

Lemma startup_applies_every_request_witness :
  shouldDeferAdapterConfiguration flagA_props = false
  ∧ appliedAdapterArgs
      (run (mount flagA_props [request "flagB" 2])
         (requests [request "flagC" 3] ++ [Fulfil 0]))
    = foldl mergeAdapterArgs (flag "flagA" 1)
        ([request "flagB" 2] ++ [request "flagC" 3]).
Proof.
  split; [reflexivity|].
  apply (startup_applies_every_request flagA_props [request "flagB" 2]
           [request "flagC" 3]).
  reflexivity.
Defined.

Lemma componentDidUpdate_configures_when_released_witness :
  let c := run (mount deferred_props [request "flagB" 2])
             [ReceiveProps flagA_props] in
  adapterState c = UNCONFIGURED
  ∧ shouldDeferAdapterConfiguration (props c) = false
  ∧ promises c = []
  ∧ adapterState
      (run c (DidUpdate :: requests [request "flagC" 3] ++ [Fulfil 0]))
    = CONFIGURED.
Proof.
  intros c. do 3 (split; [reflexivity|]).
  apply (componentDidUpdate_configures_when_released c [request "flagC" 3]);
    reflexivity.
Defined.


Lemma requests_during_reconfigure_reach_the_adapter_witness :
  adapterState reconfiguring_component = CONFIGURING
  ∧ promises reconfiguring_component = [thenReconfigure]
  ∧ adapterState
      (run reconfiguring_component
         (requests (request "flagB" 2 :: [request "flagC" 3])
          ++ [Fulfil 0; DidUpdate]))
    = CONFIGURING.
Proof.
  split; [reflexivity|]. split; [reflexivity|].
  apply (requests_during_reconfigure_reach_the_adapter reconfiguring_component
           (request "flagB" 2) [request "flagC" 3]); reflexivity.
Defined.

Lemma last_overwrite_wins_witness :
  let r := {| nextAdapterArgs := flag "flagC" 3;
              options := Some {| shouldOverwrite := Some true |} |} in
  adapterState (mount flagA_props []) ≠ CONFIGURED
  ∧ overwrites (options r) = true
  ∧ pendingAdapterArgs
      (run (mount flagA_props [])
         (requests ([request "flagB" 2] ++ r :: [request "flagD" 4])))
    = Some (foldl mergeAdapterArgs (nextAdapterArgs r) [request "flagD" 4]).
Proof.
  intros r.
  assert (H : adapterState (mount flagA_props []) ≠ CONFIGURED)
    by (vm_compute; discriminate).
  split; [exact H|]. split; [reflexivity|].
  apply (last_overwrite_wins (mount flagA_props []) [request "flagB" 2]
           [request "flagD" 4] r H).
  reflexivity.
Defined.

